(** * mybro: dashboard frontend and documented pipeline constants

    A shallow embedding of the parts of the repository the verified
    properties are about:

    - [Tickets]      the kanban page (pages/Tickets.tsx),
    - [ProjectTable] the active / inactive split of the project table
                     (components/ProjectTable.tsx),
    - [Client]       the [request] helper of the API client
                     (frontend/src/api/client.ts),
    - [HistoryStore] and [ComputeRouter], modelled from ARCHITECTURE.md
                     and the specification, because the Python modules
                     (brain.py, compute_rules.py) are not part of the
                     sources.
    - [ProjectRow]   the helpers of a table row: [timeAgo], [isRecent]
                     and the flags (components/ProjectTable.tsx),
    - [Api]          the exported calls of the API client,
    - [Dashboard]    the dashboard page and its refresh (pages/Dashboard.tsx),
    - [TicketsPage]  the handlers of the kanban page,
    - [CompactFeed]  the age of a feed entry (components/CompactFeed.tsx),
    - [Duration]     [formatDuration] (components/SystemStatusStrip.tsx,
                     pages/TimeTracking.tsx).

    React components are embedded as functions from their props (and
    state) to a description of what they render; JavaScript numbers,
    strings, [null] and promise settlement are written out. *)

From Stdlib Require Import String Ascii Bool Arith ZArith QArith Lia.
From Stdlib Require Import DecimalString List Permutation.
Import ListNotations.

Close Scope Q_scope.
Local Open Scope string_scope.
Local Open Scope list_scope.

(** ** JavaScript values shared by the components *)

Module Js.

(** A JavaScript number: a finite value, kept as a rational, or one of
    the three special values. *)
Inductive number : Type :=
| Finite (q : Q)
| PosInfinity
| NegInfinity
| NaN.

(** [ToBoolean] on a number: [0] and [NaN] are falsy. *)
Definition truthy_number (n : number) : bool :=
  match n with
  | Finite q => negb (Qeq_bool q 0%Q)
  | PosInfinity | NegInfinity => true
  | NaN => false
  end.

(** [a - b], where [round] takes the exact result of an operation on
    finite values to the value the machine stores for it. *)
Definition sub (round : Q -> Q) (a b : number) : number :=
  match a, b with
  | NaN, _ | _, NaN => NaN
  | Finite x, Finite y => Finite (round (x - y)%Q)
  | Finite _, PosInfinity => NegInfinity
  | Finite _, NegInfinity => PosInfinity
  | PosInfinity, PosInfinity => NaN
  | PosInfinity, _ => PosInfinity
  | NegInfinity, NegInfinity => NaN
  | NegInfinity, _ => NegInfinity
  end.

(** [a < b]: false as soon as one side is [NaN]. *)
Definition lt (a b : number) : bool :=
  match a, b with
  | NaN, _ | _, NaN => false
  | Finite x, Finite y => negb (Qle_bool y x)
  | Finite _, PosInfinity => true
  | Finite _, NegInfinity => false
  | PosInfinity, _ => false
  | NegInfinity, NegInfinity => false
  | NegInfinity, _ => true
  end.

(** [a >= b]: false as soon as one side is [NaN]. *)
Definition ge (a b : number) : bool :=
  match a, b with
  | NaN, _ | _, NaN => false
  | Finite x, Finite y => Qle_bool y x
  | Finite _, PosInfinity => false
  | Finite _, NegInfinity => true
  | PosInfinity, _ => true
  | NegInfinity, NegInfinity => true
  | NegInfinity, _ => false
  end.

Definition is_nan (n : number) : bool :=
  match n with NaN => true | _ => false end.

(** What a thrown value or a rejected promise carries. *)
Inductive error : Type :=
| Error (message : string)
| SyntaxError (message : string)
| TypeError (message : string).

(** How an awaited promise settles. *)
Inductive settled (A : Type) : Type :=
| Fulfilled (a : A)
| Rejected (e : error).

Arguments Fulfilled {A} a.
Arguments Rejected {A} e.

(** A JSON value, as [Response.json()] produces it. *)
#[warnings="-register-all"]
Inductive json : Type :=
| JNull
| JBool (b : bool)
| JNumber (q : Q)
| JString (s : string)
| JArray (items : list json)
| JObject (members : list (string * json)).

End Js.

(** ** pages/Tickets.tsx *)

Module Tickets.

(** The fields of [Ticket] (api/client.ts) the page reads. *)
Record Ticket : Type := {
  id : Z;
  title : string;
  status : string;
  priority : string;
  assignee : string;
  project_name : option string
}.

Record Column : Type := {
  key : string;
  label : string;
  color : string
}.

Definition COLUMNS : list Column :=
  [ {| key := "backlog"; label := "Backlog"; color := "#64748b" |};
    {| key := "todo"; label := "Todo"; color := "#3b82f6" |};
    {| key := "in_progress"; label := "In Progress"; color := "#f59e0b" |};
    {| key := "done"; label := "Done"; color := "#22c55e" |} ].

(** [tickets.filter((t) => t.status === col.key)] *)
Definition colTickets (tickets : list Ticket) (col : Column) : list Ticket :=
  filter (fun t => String.eqb (status t) (key col)) tickets.

(** One rendered card: the ticket whose title, id, priority, project and
    assignee it shows, and whether it is dimmed ([dragging === t.id]). *)
Record Card : Type := {
  ticket : Ticket;
  dimmed : bool
}.

(** One rendered column: its header (label and count) and one card per
    element of [colTickets], in order. *)
Record ColumnView : Type := {
  column : Column;
  count : nat;
  cards : list Card
}.

(** What the component returns: the header's "{tickets.length} total" and
    the grid, [COLUMNS.map(...)]. *)
Record Page : Type := {
  total : nat;
  columns : list ColumnView
}.

Definition renderCard (dragging : option Z) (t : Ticket) : Card :=
  {| ticket := t;
     dimmed := match dragging with
               | Some d => Z.eqb d (id t)
               | None => false
               end |}.

Definition renderColumn (tickets : list Ticket) (dragging : option Z)
    (col : Column) : ColumnView :=
  let colTickets := colTickets tickets col in
  {| column := col;
     count := length colTickets;
     cards := map (renderCard dragging) colTickets |}.

(** The component, as a function of its two pieces of state. *)
Definition Tickets (tickets : list Ticket) (dragging : option Z) : Page :=
  {| total := length tickets;
     columns := map (renderColumn tickets dragging) COLUMNS |}.

(** The keys a column exists for. *)
Definition column_keys : list string := map key COLUMNS.

(** Sample data: one ticket per column and two with a status the board has
    no column for. *)
Definition sample (n : Z) (st : string) : Ticket :=
  {| id := n; title := "ticket"; status := st; priority := "medium";
     assignee := "andy"; project_name := None |}.

Definition sample_tickets : list Ticket :=
  [ sample 1 "todo"; sample 2 "blocked"; sample 3 "done";
    sample 4 "review"; sample 5 "backlog"; sample 6 "in_progress" ].

Lemma column_keys_eq : column_keys = ["backlog"; "todo"; "in_progress"; "done"].
Proof. reflexivity. Qed.

Lemma colTickets_In (tickets : list Ticket) (col : Column) (t : Ticket) :
  In t (colTickets tickets col) <-> In t tickets /\ status t = key col.
Proof.
  unfold colTickets. rewrite filter_In, String.eqb_eq. tauto.
Qed.

Lemma cards_tickets (tickets : list Ticket) (dragging : option Z) (col : Column) :
  map ticket (cards (renderColumn tickets dragging col)) = colTickets tickets col.
Proof.
  unfold renderColumn. cbn [cards]. rewrite map_map. cbn [renderCard ticket].
  apply map_id.
Qed.

Lemma columns_are_COLUMNS (tickets : list Ticket) (dragging : option Z) :
  map column (columns (Tickets tickets dragging)) = COLUMNS.
Proof.
  unfold Tickets. cbn [columns]. rewrite map_map. cbn [renderColumn column].
  apply map_id.
Qed.

Lemma In_columns (tickets : list Ticket) (dragging : option Z) (cv : ColumnView) :
  In cv (columns (Tickets tickets dragging)) <->
  exists col, In col COLUMNS /\ cv = renderColumn tickets dragging col.
Proof.
  unfold Tickets. cbn [columns]. rewrite in_map_iff.
  split; intros [col [H1 H2]]; exists col; auto.
Qed.

(** Specification-side notion: the tickets whose status is the key of no
    column. *)
Definition unplaced (tickets : list Ticket) : list Ticket :=
  filter (fun t => negb (existsb (String.eqb (status t)) column_keys)) tickets.

Lemma unplaced_In (tickets : list Ticket) (t : Ticket) :
  In t (unplaced tickets) <-> In t tickets /\ ~ In (status t) column_keys.
Proof.
  unfold unplaced. rewrite filter_In, negb_true_iff.
  split; intros [Hin H]; split; auto.
  - intros Hk. assert (E : existsb (String.eqb (status t)) column_keys = true).
    { apply existsb_exists. exists (status t). split; auto. apply String.eqb_refl. }
    congruence.
  - destruct (existsb (String.eqb (status t)) column_keys) eqn:E; auto.
    apply existsb_exists in E. destruct E as [k [Hk Ek]].
    apply String.eqb_eq in Ek. subst k. contradiction.
Qed.

(** Every ticket is counted once: in the one column whose key is its
    status, or among the unplaced ones. *)
Lemma counts_add_up (tickets : list Ticket) :
  length tickets =
  list_sum (map (fun col => length (colTickets tickets col)) COLUMNS)
  + length (unplaced tickets).
Proof.
  induction tickets as [|t ts IH]; [reflexivity|].
  unfold unplaced, colTickets, column_keys, COLUMNS in *.
  cbn [map filter list_sum existsb key length negb orb] in *.
  destruct (status t =? "backlog") eqn:E1.
  { apply String.eqb_eq in E1. rewrite E1.
    change ("backlog" =? "todo") with false.
    change ("backlog" =? "in_progress") with false.
    change ("backlog" =? "done") with false.
    unfold list_sum in *; cbn [fold_right length negb orb] in *. lia. }
  destruct (status t =? "todo") eqn:E2.
  { apply String.eqb_eq in E2. rewrite E2.
    change ("todo" =? "in_progress") with false.
    change ("todo" =? "done") with false.
    unfold list_sum in *; cbn [fold_right length negb orb] in *. lia. }
  destruct (status t =? "in_progress") eqn:E3.
  { apply String.eqb_eq in E3. rewrite E3.
    change ("in_progress" =? "done") with false.
    unfold list_sum in *; cbn [fold_right length negb orb] in *. lia. }
  destruct (status t =? "done") eqn:E4;
    unfold list_sum in *; cbn [fold_right length negb orb] in *; lia.
Qed.

(** C8. For every list of tickets the page shows [tickets.length] as its
    total, renders one column per entry of [COLUMNS], and puts a card for
    a ticket in a column exactly when the ticket is in the list and its
    status equals the column's key.  A ticket whose status is none of
    backlog, todo, in_progress, done therefore gets a card in no column,
    although the total counts it: the total is the sum of the column
    counts plus the number of such tickets. *)
Theorem kanban_card_iff_status (tickets : list Ticket) (dragging : option Z) :
  let page := Tickets tickets dragging in
  total page = length tickets
  /\ map column (columns page) = COLUMNS
  /\ (forall cv t, In cv (columns page) ->
        count cv = length (cards cv)
        /\ (In t (map ticket (cards cv)) <->
            In t tickets /\ status t = key (column cv)))
  /\ (forall t, ~ In (status t) ["backlog"; "todo"; "in_progress"; "done"] ->
        forall cv, In cv (columns page) -> ~ In t (map ticket (cards cv)))
  /\ total page =
     list_sum (map count (columns page)) + length (unplaced tickets).
Proof.
  intros page. subst page.
  assert (Hcards : forall cv t, In cv (columns (Tickets tickets dragging)) ->
            count cv = length (cards cv)
            /\ (In t (map ticket (cards cv)) <->
                In t tickets /\ status t = key (column cv))).
  { intros cv t Hcv. apply In_columns in Hcv. destruct Hcv as [col [_ ->]].
    split.
    - unfold renderColumn. cbn [count cards]. now rewrite length_map.
    - rewrite cards_tickets. apply colTickets_In. }
  split; [reflexivity|].
  split; [apply columns_are_COLUMNS|].
  split; [exact Hcards|].
  split.
  - intros t Hst cv Hcv Hin.
    destruct (Hcards cv t Hcv) as [_ Hiff]. apply Hiff in Hin.
    destruct Hin as [_ Heq]. apply Hst. rewrite Heq.
    apply In_columns in Hcv. destruct Hcv as [col [Hcol ->]].
    change (In (key col) column_keys). unfold column_keys.
    apply in_map. exact Hcol.
  - unfold Tickets. cbn [total columns].
    rewrite map_map. cbn [renderColumn count]. apply counts_add_up.
Qed.

(** On the sample list: six tickets in total, four cards over the four
    columns, and no card for the blocked and review tickets. *)
Lemma kanban_sample :
  total (Tickets sample_tickets None) = 6
  /\ list_sum (map count (columns (Tickets sample_tickets None))) = 4
  /\ unplaced sample_tickets = [sample 2 "blocked"; sample 4 "review"]
  /\ forall cv, In cv (columns (Tickets sample_tickets None)) ->
       ~ In (sample 2 "blocked") (map ticket (cards cv)).
Proof.
  destruct (kanban_card_iff_status sample_tickets None) as (H1 & _ & _ & H4 & _).
  split; [exact H1|]. split; [reflexivity|]. split; [reflexivity|].
  apply H4. simpl. intros [H|[H|[H|[H|[]]]]]; discriminate H.
Defined.

End Tickets.

(** ** components/ProjectTable.tsx *)

Module ProjectTable.

(** The parts of [DashboardProjectFull] (api/client.ts) the table's two
    filters and the row key read; the remaining members (loc, tickets,
    scripts, droplets, health, sessions) only feed the cells of a row. *)
Record Project : Type := {
  id : Z;
  name : string
}.

Record GitInfo : Type := {
  branch : string;
  commit_message : string;
  commit_ts : option Js.number;
  uncommitted : Z
}.

Record Server : Type := {
  server_pid : Z;
  server_command : string;
  port : Z
}.

Record ClaudeProcess : Type := {
  pid : Z;
  command : string
}.

Record DashboardProjectFull : Type := {
  project : Project;
  git : GitInfo;
  servers : list Server;
  claude : list ClaudeProcess
}.

(** The collapsible part under the main table: present when [inactive] is
    not empty; its button shows the count, and its table is there while
    [showInactive] holds. *)
Record InactiveSection : Type := {
  button_count : nat;
  inactive_rows : option (list DashboardProjectFull)
}.

Record View : Type := {
  rows : list DashboardProjectFull;
  inactive_section : option InactiveSection
}.

(** [const SEVEN_DAYS = 7 * 24 * 3600;] *)
Definition SEVEN_DAYS : Js.number := Js.Finite (7 * 24 * 3600)%Q.

Section Component.

(** The rounding of the arithmetic on numbers; what follows holds
    whatever it is. *)
Variable round : Q -> Q.

(** [const now = Date.now() / 1000;] where [Date.now()] is a whole number
    of milliseconds. *)
Definition now (Date_now : Z) : Js.number :=
  Js.Finite (round (inject_Z Date_now / 1000)%Q).

(** [p.git.commit_ts ? now - p.git.commit_ts : Infinity]; [null] is
    falsy, and so are the numbers [0] and [NaN]. *)
Definition commitAge (now : Js.number) (p : DashboardProjectFull) : Js.number :=
  match commit_ts (git p) with
  | Some ts =>
      if Js.truthy_number ts then Js.sub round now ts else Js.PosInfinity
  | None => Js.PosInfinity
  end.

(** The callback of the first [projects.filter]. *)
Definition isActive (now : Js.number) (p : DashboardProjectFull) : bool :=
  Js.lt (commitAge now p) SEVEN_DAYS
  || (0 <? length (servers p))%nat
  || (0 <? length (claude p))%nat.

(** The callback of the second [projects.filter]. *)
Definition isInactive (now : Js.number) (p : DashboardProjectFull) : bool :=
  Js.ge (commitAge now p) SEVEN_DAYS
  && (length (servers p) =? 0)%nat
  && (length (claude p) =? 0)%nat.

Definition active (projects : list DashboardProjectFull) (Date_now : Z)
  : list DashboardProjectFull :=
  filter (isActive (now Date_now)) projects.

Definition inactive (projects : list DashboardProjectFull) (Date_now : Z)
  : list DashboardProjectFull :=
  filter (isInactive (now Date_now)) projects.

(** The component, as a function of its props, the clock and its state
    ([useState(false)]). *)
Definition ProjectTable (projects : list DashboardProjectFull) (Date_now : Z)
    (showInactive : bool) : View :=
  let active := active projects Date_now in
  let inactive := inactive projects Date_now in
  {| rows := active;
     inactive_section :=
       if (0 <? length inactive)%nat
       then Some {| button_count := length inactive;
                    inactive_rows :=
                      if showInactive then Some inactive else None |}
       else None |}.

End Component.

(** Sample projects: committed a minute ago; never committed and idle;
    never committed but serving; timestamp 0 and idle; committed seven
    days ago to the second. *)
Definition sample (n : Z) (ts : option Js.number) (srv : list Server)
  : DashboardProjectFull :=
  {| project := {| id := n; name := "p" |};
     git := {| branch := "main"; commit_message := ""; commit_ts := ts;
               uncommitted := 0 |};
     servers := srv;
     claude := [] |}.

Definition sample_now : Z := 1700000000000.

Definition sample_projects : list DashboardProjectFull :=
  [ sample 1 (Some (Js.Finite 1699999940%Q)) [];
    sample 2 None [];
    sample 3 None [ {| server_pid := 10; server_command := "vite"; port := 5173 |} ];
    sample 4 (Some (Js.Finite 0%Q)) [];
    sample 5 (Some (Js.Finite 1699395200%Q)) [] ].

(** Arithmetic without rounding error, for the samples. *)
Definition exact : Q -> Q := fun q => q.

(** The rows of the second table of a view: those of the inactive table
    when it is rendered, none otherwise. *)
Definition rendered_inactive (v : View) : list DashboardProjectFull :=
  match inactive_section v with
  | Some sec =>
      match inactive_rows sec with
      | Some l => l
      | None => []
      end
  | None => []
  end.

(** *** Comparisons against a finite bound *)

Lemma ge_is_not_lt (a : Js.number) (b : Q) :
  Js.is_nan a = false -> Js.ge a (Js.Finite b) = negb (Js.lt a (Js.Finite b)).
Proof.
  destruct a as [x| | |]; simpl; intros H; try reflexivity.
  - now rewrite negb_involutive.
  - discriminate H.
Qed.

Lemma sub_truthy_not_nan (round : Q -> Q) (n : Q) (ts : Js.number) :
  Js.truthy_number ts = true ->
  Js.is_nan (Js.sub round (Js.Finite n) ts) = false.
Proof.
  destruct ts; simpl; intros H; try reflexivity. discriminate H.
Qed.

Lemma commitAge_not_nan (round : Q -> Q) (Date_now : Z)
    (p : DashboardProjectFull) :
  Js.is_nan (commitAge round (now round Date_now) p) = false.
Proof.
  unfold commitAge, now. destruct (commit_ts (git p)) as [ts|]; [|reflexivity].
  destruct (Js.truthy_number ts) eqn:E; [|reflexivity].
  now apply sub_truthy_not_nan.
Qed.

Lemma isInactive_negb_isActive (round : Q -> Q) (Date_now : Z)
    (p : DashboardProjectFull) :
  isInactive round (now round Date_now) p
  = negb (isActive round (now round Date_now) p).
Proof.
  unfold isInactive, isActive, SEVEN_DAYS.
  rewrite (ge_is_not_lt _ _ (commitAge_not_nan round Date_now p)).
  rewrite !negb_orb.
  destruct (length (servers p)), (length (claude p)); reflexivity.
Qed.

(** *** Splitting a list by a predicate and its negation *)

Lemma filter_split_perm {A : Type} (f g : A -> bool) (l : list A) :
  (forall x, g x = negb (f x)) ->
  Permutation (filter f l ++ filter g l) l.
Proof.
  intros Hg. induction l as [|x l IH]; simpl; [constructor|].
  rewrite Hg. destruct (f x); simpl.
  - now constructor.
  - symmetry. apply Permutation_cons_app. now symmetry.
Qed.

(** C9, as the code has it.  At every clock reading, and however the
    arithmetic rounds, the second filter is the negation of the first; a
    project whose commit timestamp is null has age [Infinity]; so every
    project is in exactly one of the two lists [active] and [inactive],
    which together are a rearrangement of [projects].  The main table
    always shows [active].  The second table shows [inactive] only while
    [showInactive] is set; while it is not (the state on mount) no row of
    an inactive project is rendered, and the button shows their number. *)
Theorem active_inactive_partition (round : Q -> Q)
    (projects : list DashboardProjectFull) (Date_now : Z) :
  let now := now round Date_now in
  let active := active round projects Date_now in
  let inactive := inactive round projects Date_now in
  (forall p, isInactive round now p = negb (isActive round now p))
  /\ (forall p, commit_ts (git p) = None ->
        commitAge round now p = Js.PosInfinity)
  /\ (forall p, In p projects <-> In p active \/ In p inactive)
  /\ (forall p, ~ (In p active /\ In p inactive))
  /\ Permutation (active ++ inactive) projects
  /\ (forall showInactive,
        rows (ProjectTable round projects Date_now showInactive) = active)
  /\ (forall showInactive,
        rendered_inactive (ProjectTable round projects Date_now showInactive)
        = if showInactive then inactive else [])
  /\ (forall showInactive,
        option_map button_count
          (inactive_section (ProjectTable round projects Date_now showInactive))
        = match inactive with
          | [] => None
          | _ :: _ => Some (length inactive)
          end).
Proof.
  cbv zeta.
  pose proof (isInactive_negb_isActive round Date_now) as Hc.
  split; [exact Hc|].
  split.
  { intros p Hts. unfold commitAge. now rewrite Hts. }
  split.
  { intros p. unfold active, inactive. rewrite !filter_In, Hc.
    destruct (isActive round (now round Date_now) p); simpl;
      intuition congruence. }
  split.
  { intros p. unfold active, inactive. rewrite !filter_In, Hc.
    destruct (isActive round (now round Date_now) p); simpl;
      intuition congruence. }
  split.
  { apply filter_split_perm. exact Hc. }
  split; [reflexivity|].
  split; intros showInactive;
    unfold rendered_inactive, ProjectTable; cbn [inactive_section];
    destruct (inactive round projects Date_now), showInactive; reflexivity.
Qed.

(** C9 as worded fails: on mount ([showInactive] is false) the second
    sample project, which has no commit, no server and no Claude process,
    is in the list passed to the component and in neither rendered
    table.  So it is not true that every project always appears in a
    rendered table. *)
Lemma inactive_hidden_on_mount :
  let p := sample 2 None [] in
  let view := ProjectTable exact sample_projects sample_now false in
  In p sample_projects
  /\ ~ In p (rows view)
  /\ ~ In p (rendered_inactive view)
  /\ ~ (forall (round : Q -> Q) (projects : list DashboardProjectFull)
           (Date_now : Z) (showInactive : bool) (q : DashboardProjectFull),
          In q projects ->
          In q (rows (ProjectTable round projects Date_now showInactive))
          \/ In q (rendered_inactive
                     (ProjectTable round projects Date_now showInactive))).
Proof.
  cbv zeta.
  assert (Hin : In (sample 2 None []) sample_projects)
    by (right; left; reflexivity).
  assert (Hrows : ~ In (sample 2 None [])
                      (rows (ProjectTable exact sample_projects sample_now false))).
  { vm_compute. intros [H|[H|[]]]; discriminate H. }
  assert (Hsec : ~ In (sample 2 None [])
                     (rendered_inactive
                        (ProjectTable exact sample_projects sample_now false))).
  { vm_compute. intros []. }
  repeat split; try assumption.
  intros H.
  destruct (H exact sample_projects sample_now false (sample 2 None []) Hin)
    as [H1|H1]; [exact (Hrows H1)|exact (Hsec H1)].
Qed.

(** While the second table is collapsed (the initial state) only the
    count of the inactive projects is shown. *)
Lemma collapsed_shows_count_only (round : Q -> Q)
    (projects : list DashboardProjectFull) (Date_now : Z) :
  rendered_inactive (ProjectTable round projects Date_now false) = []
  /\ (inactive round projects Date_now <> [] ->
      option_map button_count
        (inactive_section (ProjectTable round projects Date_now false))
      = Some (length (inactive round projects Date_now))).
Proof.
  unfold rendered_inactive, ProjectTable. cbn [inactive_section].
  destruct (inactive round projects Date_now) as [|p l]; split;
    try reflexivity; intros H; congruence.
Qed.

(** On the sample list at the sample clock: the fresh and the serving
    project are active, the other three (no timestamp, timestamp 0, a week
    old to the second) are inactive. *)
Lemma partition_sample :
  map (fun p => id (project p)) (active exact sample_projects sample_now)
  = [1; 3]%Z
  /\ map (fun p => id (project p)) (inactive exact sample_projects sample_now)
     = [2; 4; 5]%Z
  /\ Permutation
       (active exact sample_projects sample_now
        ++ inactive exact sample_projects sample_now)
       sample_projects.
Proof.
  destruct (active_inactive_partition exact sample_projects sample_now)
    as (_ & _ & _ & _ & H & _).
  split; [reflexivity|]. split; [reflexivity|]. exact H.
Defined.

End ProjectTable.

(** ** frontend/src/api/client.ts: the [request] helper *)

Module Client.

(** [const BASE = '/api';] *)
Definition BASE : string := "/api".

(** The members of [RequestInit] the client sets; [None] is an absent
    property. *)
Record RequestInit : Type := {
  method : option string;
  headers : option (list (string * string));
  body : option string
}.

(** A [Response] as [request] observes it: the status line, and how the
    promise returned by [res.json()] settles (it rejects with a
    [SyntaxError] when the body is not JSON). *)
Record Response : Type := {
  status : nat;
  statusText : string;
  json : Js.settled Js.json
}.

(** [res.ok]: the status is in the range 200-299. *)
Definition ok (res : Response) : bool :=
  (200 <=? status res)%nat && (status res <=? 299)%nat.

(** [{ headers: { 'Content-Type': 'application/json' }, ...options }]:
    the properties of [options] override the default headers. *)
Definition init (options : option RequestInit) : RequestInit :=
  let default := [("Content-Type", "application/json")] in
  match options with
  | None => {| method := None; headers := Some default; body := None |}
  | Some o =>
      {| method := method o;
         headers := match headers o with
                    | Some h => Some h
                    | None => Some default
                    end;
         body := body o |}
  end.

(** [`${res.status}`] *)
Definition status_string (res : Response) : string :=
  NilZero.string_of_uint (Nat.to_uint (status res)).

(** [`${res.status} ${res.statusText}`] *)
Definition error_message (res : Response) : string :=
  (status_string res ++ " " ++ statusText res)%string.

Section Request.

(** The network: how the promise returned by [fetch(url, init)] settles. *)
Variable fetch : string -> RequestInit -> Js.settled Response.

(** The outcome of awaiting [request(path, options)]:
    [await fetch(...)] rethrows a rejection; a response that is not ok
    throws; otherwise the promise of [res.json()] is returned, and the
    caller's promise settles as it does. *)
Definition request (path : string) (options : option RequestInit)
  : Js.settled Js.json :=
  match fetch (BASE ++ path)%string (init options) with
  | Js.Rejected e => Js.Rejected e
  | Js.Fulfilled res =>
      if negb (ok res) then Js.Rejected (Js.Error (error_message res))
      else json res
  end.

End Request.

(** Sample networks. *)
Definition not_found : Response :=
  {| status := 404; statusText := "Not Found";
     json := Js.Fulfilled (Js.JObject [("detail", Js.JString "Not Found")]) |}.

Definition tickets_page : Response :=
  {| status := 200; statusText := "OK";
     json := Js.Fulfilled
               (Js.JObject [("tickets", Js.JArray []); ("total", Js.JNumber 0%Q)]) |}.

(** A 200 answer whose body is not JSON (here an HTML page). *)
Definition html_page : Response :=
  {| status := 200; statusText := "OK";
     json := Js.Rejected (Js.SyntaxError "Unexpected token '<'") |}.

Definition serve (res : Response) : string -> RequestInit -> Js.settled Response :=
  fun _ _ => Js.Fulfilled res.

(** A network that is down: [fetch] itself rejects. *)
Definition offline : string -> RequestInit -> Js.settled Response :=
  fun _ _ => Js.Rejected (Js.TypeError "Failed to fetch").

Lemma request_of_response
    (fetch : string -> RequestInit -> Js.settled Response)
    (path : string) (options : option RequestInit) (res : Response) :
  fetch (BASE ++ path)%string (init options) = Js.Fulfilled res ->
  request fetch path options =
  if ok res then json res else Js.Rejected (Js.Error (error_message res)).
Proof.
  intros H. unfold request. rewrite H. now destruct (ok res).
Qed.

(** [request] never sends a request without headers: the default content
    type is used unless the caller passes headers of its own. *)
Lemma init_headers (options : option RequestInit) :
  headers (init options) =
  match options with
  | Some o =>
      match headers o with
      | Some h => Some h
      | None => Some [("Content-Type", "application/json")]
      end
  | None => Some [("Content-Type", "application/json")]
  end.
Proof. destruct options as [o|]; reflexivity. Qed.

(** C10, as the code has it.  For every call whose [fetch] answers with a
    response: if the response is not ok, [request] throws an [Error]
    whose message is the status code, a space and the status text, and
    returns no value; if the response is ok, [request] settles as
    [res.json()] does.  So it returns a value exactly when the response is
    ok and its body parses as JSON, and that value is the parsed body. *)
Theorem request_throws_unless_ok
    (fetch : string -> RequestInit -> Js.settled Response)
    (path : string) (options : option RequestInit) (res : Response) :
  fetch (BASE ++ path)%string (init options) = Js.Fulfilled res ->
  (ok res = false ->
     request fetch path options
     = Js.Rejected
         (Js.Error (NilZero.string_of_uint (Nat.to_uint (status res))
                    ++ " " ++ statusText res)%string)
     /\ forall v, request fetch path options <> Js.Fulfilled v)
  /\ (ok res = true -> request fetch path options = json res)
  /\ (forall v, request fetch path options = Js.Fulfilled v <->
                ok res = true /\ json res = Js.Fulfilled v).
Proof.
  intros H. rewrite (request_of_response _ _ _ _ H).
  destruct (ok res); repeat split; try congruence; try discriminate.
  - intros [_ Hv]. exact Hv.
  - intros [Hok _]. discriminate Hok.
Qed.

(** The theorem at a 404 answer and at a 200 answer carrying JSON. *)
Lemma request_throws_unless_ok_sample :
  request (serve not_found) "/tickets/7" None
  = Js.Rejected (Js.Error "404 Not Found")
  /\ request (serve tickets_page) "/tickets" None = json tickets_page.
Proof.
  split.
  - destruct (request_throws_unless_ok (serve not_found) "/tickets/7" None
                not_found eq_refl) as [Hthrow _].
    apply Hthrow. reflexivity.
  - destruct (request_throws_unless_ok (serve tickets_page) "/tickets" None
                tickets_page eq_refl) as (_ & Hok & _).
    apply Hok. reflexivity.
Defined.

(** C10 as worded fails: the response below is ok (status 200), yet
    [request] returns no parsed body, because [res.json()] rejects and the
    rejection is passed on to the caller. *)
Lemma ok_response_without_json :
  ok html_page = true
  /\ request (serve html_page) "/dashboard/full" None
     = Js.Rejected (Js.SyntaxError "Unexpected token '<'")
  /\ ~ (forall fetch path options res,
          fetch (BASE ++ path)%string (init options) = Js.Fulfilled res ->
          ((exists v, request fetch path options = Js.Fulfilled v)
           <-> ok res = true)).
Proof.
  split; [reflexivity|]. split; [reflexivity|].
  intros H.
  destruct (H (serve html_page) "/dashboard/full" None html_page eq_refl)
    as [_ Hret].
  destruct (Hret eq_refl) as [v Hv]. discriminate Hv.
Qed.

(** When [fetch] itself rejects there is no response, and the rejection
    reaches the caller unchanged. *)
Lemma request_offline (path : string) (options : option RequestInit) :
  request offline path options = Js.Rejected (Js.TypeError "Failed to fetch").
Proof. reflexivity. Qed.

End Client.

(** ** The History Store (documented in ARCHITECTURE.md) *)

Module HistoryStore.

Section Store.

(** One request/response cycle; the store never looks inside it. *)
Variable Exchange : Type.

(** Modelled from the spec: the capacity of the rolling history that
    brain.py keeps (brain.py is not among the sources).  ARCHITECTURE.md,
    Pipeline Stages, item 3: "maintains rolling history (30 exchanges)". *)
Definition N : nat := 30.

(** Modelled from the spec: the store itself, oldest exchange first. *)
Definition store : Type := list Exchange.

Definition empty : store := [].

(** Modelled from the spec: the append of the History Store of brain.py.
    "Appended to the History Store; the store retains the most recent N
    exchanges (fixed capacity, oldest evicted first)": a full store drops
    its oldest exchange, then the new one goes to the end.  No operation
    rewrites a stored exchange. *)
Definition append (s : store) (e : Exchange) : store :=
  if (N <=? length s)%nat then tl s ++ [e] else s ++ [e].

(** The store after appending [es] in order to the empty store. *)
Definition appended (es : list Exchange) : store :=
  fold_left append es empty.

(** Specification-side notion: the last [n] elements of a list. *)
Definition most_recent (n : nat) (es : list Exchange) : list Exchange :=
  skipn (length es - n) es.

Lemma appended_snoc (es : list Exchange) (e : Exchange) :
  appended (es ++ [e]) = append (appended es) e.
Proof. unfold appended. now rewrite fold_left_app. Qed.

Lemma tl_skipn (k : nat) (l : list Exchange) :
  tl (skipn k l) = skipn (S k) l.
Proof.
  revert l. induction k as [|k IH]; intros [|x l]; simpl; auto.
Qed.

Lemma most_recent_length (n : nat) (es : list Exchange) :
  length (most_recent n es) = Nat.min (length es) n.
Proof. unfold most_recent. rewrite length_skipn. lia. Qed.

(** Appending to the last [N] of [es] gives the last [N] of [es ++ [e]]. *)
Lemma append_most_recent (es : list Exchange) (e : Exchange) :
  append (most_recent N es) e = most_recent N (es ++ [e]).
Proof.
  unfold append. rewrite most_recent_length. unfold most_recent, N.
  rewrite length_app. simpl length.
  destruct (30 <=? Nat.min (length es) 30)%nat eqn:E.
  - apply Nat.leb_le in E.
    rewrite tl_skipn, skipn_app.
    replace (length es + 1 - 30 - length es) with 0 by lia.
    change (skipn 0 [e]) with [e]. f_equal. f_equal. lia.
  - apply Nat.leb_gt in E.
    replace (length es - 30) with 0 by lia.
    replace (length es + 1 - 30) with 0 by lia.
    reflexivity.
Qed.

Lemma appended_most_recent (es : list Exchange) :
  appended es = most_recent N es.
Proof.
  induction es as [|e es IH] using rev_ind; [reflexivity|].
  now rewrite appended_snoc, IH, append_most_recent.
Qed.

(** C7. After any sequence of appends the History Store holds at most 30
    exchanges, and they are exactly the most recent appended ones, in
    append order and as they were appended; appending to a store that is
    not full extends it, appending to a full one drops its oldest
    exchange and nothing else. *)
Theorem history_store_bounded_fifo (es : list Exchange) :
  length (appended es) <= 30
  /\ appended es = skipn (length es - 30) es
  /\ (forall e, length (appended es) < 30 ->
        appended (es ++ [e]) = appended es ++ [e])
  /\ (forall e, length (appended es) = 30 ->
        appended (es ++ [e]) = tl (appended es) ++ [e])
  /\ (forall i x, nth_error (appended es) i = Some x ->
        nth_error es (length es - length (appended es) + i) = Some x).
Proof.
  pose proof (appended_most_recent es) as H.
  pose proof (most_recent_length N es) as Hlen. rewrite <- H in Hlen.
  change N with 30 in *.
  split; [lia|].
  split; [exact H|].
  split.
  { intros e Hlt. rewrite appended_snoc. unfold append. change N with 30.
    destruct (30 <=? length (appended es))%nat eqn:E; [|reflexivity].
    apply Nat.leb_le in E. lia. }
  split.
  { intros e Heq. rewrite appended_snoc. unfold append. change N with 30.
    rewrite Heq. reflexivity. }
  intros i x Hi. rewrite Hlen. rewrite H in Hi. unfold most_recent in Hi.
  change N with 30 in Hi. rewrite nth_error_skipn in Hi.
  rewrite <- Hi. f_equal. lia.
Qed.

End Store.

(** Thirty-two appends to an empty store of numbers: the first two are
    gone, the rest is kept in order. *)
Lemma history_store_sample :
  appended nat (seq 1 32) = seq 3 30.
Proof.
  destruct (history_store_bounded_fifo nat (seq 1 32)) as (_ & H & _).
  rewrite H. reflexivity.
Defined.

End HistoryStore.

(** ** The Compute Router (documented in ARCHITECTURE.md) *)

Module ComputeRouter.

(** The five compute targets of ARCHITECTURE.md, Compute Routing. *)
Inductive ComputeTarget : Type :=
| LOCAL_CPU
| LOCAL_GPU
| LOCAL_ANE
| REMOTE_CUDA
| WASM_BROWSER.

(** How a job placed on the local CPU runs. *)
Inductive CpuPath : Type :=
| Scalar
| SimdParallel.

(** Modelled from the spec: the input of [route] in compute_rules.py,
    which is not among the sources.  "Inputs include an estimated element
    count, estimated wall-clock duration, and a flag for whether
    client-side execution is acceptable."  The duration is in seconds. *)
Record action_profile : Type := {
  element_count : Z;
  estimated_duration_s : Z;
  client_side_ok : bool
}.

(** Modelled from the spec: the threshold constants.  ARCHITECTURE.md:
    "Decision thresholds: GPU >50k elements, SIMD >1k elements,
    checkpointing >10 min, cloud offload >30 min." *)
Definition GPU_ELEMENTS : Z := 50000.
Definition SIMD_ELEMENTS : Z := 1000.
Definition CHECKPOINT_SECONDS : Z := 10 * 60.
Definition OFFLOAD_SECONDS : Z := 30 * 60.

(** Modelled from the spec: [route] of compute_rules.py.  A job estimated
    to run longer than 30 minutes is offloaded to the remote GPU; a job
    that stays local goes to the GPU above 50,000 elements and to the CPU
    otherwise.  The documents give no rule that selects the neural engine
    or the browser, so none is modelled. *)
Definition route (p : action_profile) : ComputeTarget :=
  if (OFFLOAD_SECONDS <? estimated_duration_s p)%Z then REMOTE_CUDA
  else if (GPU_ELEMENTS <? element_count p)%Z then LOCAL_GPU
  else LOCAL_CPU.

(** Modelled from the spec: the path taken on the local CPU, "element
    count > 1,000 but <= 50,000: prefer a CPU SIMD/parallel path over
    scalar". *)
Definition cpu_path (p : action_profile) : CpuPath :=
  if (SIMD_ELEMENTS <? element_count p)%Z then SimdParallel else Scalar.

(** Modelled from the spec: "estimated duration > 10 minutes: require
    checkpoint support". *)
Definition requires_checkpoint (p : action_profile) : bool :=
  (CHECKPOINT_SECONDS <? estimated_duration_s p)%Z.

Definition profile (elements seconds : Z) : action_profile :=
  {| element_count := elements; estimated_duration_s := seconds;
     client_side_ok := false |}.

(** The three ways [route] can go. *)
Lemma route_cases (p : action_profile) :
  ((estimated_duration_s p > 1800)%Z /\ route p = REMOTE_CUDA)
  \/ ((estimated_duration_s p <= 1800)%Z /\ (element_count p > 50000)%Z
      /\ route p = LOCAL_GPU)
  \/ ((estimated_duration_s p <= 1800)%Z /\ (element_count p <= 50000)%Z
      /\ route p = LOCAL_CPU).
Proof.
  unfold route, OFFLOAD_SECONDS, GPU_ELEMENTS.
  destruct (Z.ltb_spec (30 * 60) (estimated_duration_s p)) as [Hd|Hd].
  - left. split; [lia|reflexivity].
  - right. destruct (Z.ltb_spec 50000 (element_count p)) as [He|He].
    + left. repeat split; [lia|lia].
    + right. repeat split; [lia|lia].
Qed.

Lemma cpu_path_simd (p : action_profile) :
  cpu_path p = SimdParallel <-> (element_count p > 1000)%Z.
Proof.
  unfold cpu_path, SIMD_ELEMENTS.
  destruct (Z.ltb_spec 1000 (element_count p)); split;
    try reflexivity; try discriminate; lia.
Qed.

Lemma requires_checkpoint_iff (p : action_profile) :
  requires_checkpoint p = true <-> (estimated_duration_s p > 600)%Z.
Proof.
  unfold requires_checkpoint, CHECKPOINT_SECONDS.
  rewrite Z.ltb_lt. lia.
Qed.

(** C2. The thresholds are strict.  A job is offloaded to the remote GPU
    exactly when its estimated duration exceeds 30 minutes; a job that is
    not offloaded runs on the local GPU exactly when it has more than
    50,000 elements and on the local CPU otherwise, there on the SIMD /
    parallel path exactly when it has more than 1,000 elements; a
    checkpoint is required exactly when the duration exceeds 10 minutes.
    At the boundaries: 50,000 elements stay on the CPU and 50,001 go to
    the GPU; 30 minutes stay local and 30 minutes and a second go
    remote. *)
Theorem route_thresholds_strict (p : action_profile) :
  (route p = REMOTE_CUDA <-> (estimated_duration_s p > 30 * 60)%Z)
  /\ (route p = LOCAL_GPU <->
      (estimated_duration_s p <= 30 * 60)%Z /\ (element_count p > 50000)%Z)
  /\ (route p = LOCAL_CPU <->
      (estimated_duration_s p <= 30 * 60)%Z /\ (element_count p <= 50000)%Z)
  /\ (cpu_path p = SimdParallel <-> (element_count p > 1000)%Z)
  /\ (requires_checkpoint p = true <-> (estimated_duration_s p > 10 * 60)%Z)
  /\ (forall d, (d <= 30 * 60)%Z ->
        route (profile 50000 d) = LOCAL_CPU
        /\ cpu_path (profile 50000 d) = SimdParallel
        /\ route (profile 50001 d) = LOCAL_GPU)
  /\ (forall n, route (profile n (30 * 60)) <> REMOTE_CUDA
               /\ route (profile n (30 * 60 + 1)) = REMOTE_CUDA).
Proof.
  change (30 * 60)%Z with 1800%Z. change (10 * 60)%Z with 600%Z.
  change (1800 + 1)%Z with 1801%Z.
  split; [|split; [|split]].
  1-3: destruct (route_cases p) as [[Hd Hr]|[(Hd & He & Hr)|(Hd & He & Hr)]];
    rewrite Hr; split; try discriminate; try lia; intuition lia.
  split; [apply cpu_path_simd|].
  split; [apply requires_checkpoint_iff|].
  split.
  - intros d Hd.
    assert (E : (1800 <? d)%Z = false) by (apply Z.ltb_ge; exact Hd).
    unfold route, cpu_path, profile, OFFLOAD_SECONDS; simpl.
    rewrite E. repeat split; reflexivity.
  - intros n. split; [|reflexivity].
    unfold route, profile; simpl.
    destruct (GPU_ELEMENTS <? n)%Z; discriminate.
Qed.

(** A table of cases around the four thresholds. *)
Lemma route_table :
  map route
    [ profile 1000 60; profile 1001 60; profile 50000 600;
      profile 50001 601; profile 50001 1800; profile 10 1801 ]
  = [ LOCAL_CPU; LOCAL_CPU; LOCAL_CPU; LOCAL_GPU; LOCAL_GPU; REMOTE_CUDA ]
  /\ map cpu_path [ profile 1000 60; profile 1001 60; profile 50000 600 ]
     = [ Scalar; SimdParallel; SimdParallel ]
  /\ map requires_checkpoint [ profile 50000 600; profile 50001 601 ]
     = [ false; true ].
Proof. repeat split; reflexivity. Qed.

End ComputeRouter.

(** ** Arithmetic on numbers used by the formatting helpers *)

From Stdlib Require Import Qround Lqa.

Module JsMath.

(** What is used of the machine's rounding: it preserves order, and it
    leaves [1] alone.  IEEE 754 rounding to nearest has both. *)
Definition monotone (round : Q -> Q) : Prop :=
  forall x y, (x <= y)%Q -> (round x <= round y)%Q.

Definition fixes_one (round : Q -> Q) : Prop := (round 1 == 1)%Q.

(** [a / c] for a positive numeric literal [c]. *)
Definition div_by (round : Q -> Q) (a : Js.number) (c : Q) : Js.number :=
  match a with
  | Js.Finite x => Js.Finite (round (x / c)%Q)
  | _ => a
  end.

(** [Math.floor(a)]. *)
Definition floor (a : Js.number) : Js.number :=
  match a with
  | Js.Finite x => Js.Finite (inject_Z (Qfloor x))
  | _ => a
  end.

(** The integer a rational is, if it is one. *)
Definition whole (q : Q) : option Z :=
  if (Qnum q mod Zpos (Qden q) =? 0)%Z
  then Some (Qnum q / Zpos (Qden q))%Z
  else None.

(** An integer in decimal, with a minus sign when negative. *)
Definition decimal (z : Z) : string := NilZero.string_of_int (Z.to_int z).

(** [`${n}`]: the special values have names; an integer of magnitude up
    to 2^53 is written in decimal with all its digits; [digits] stands
    for the conversion of every other finite value (a fraction, or a
    larger number, of which only the shortest digits that read back as
    the same number are printed). *)
Definition to_string (digits : Q -> string) (n : Js.number) : string :=
  match n with
  | Js.NaN => "NaN"
  | Js.PosInfinity => "Infinity"
  | Js.NegInfinity => "-Infinity"
  | Js.Finite q =>
      match whole q with
      | Some z => if (Z.abs z <=? 2 ^ 53)%Z then decimal z else digits q
      | None => digits q
      end
  end.

(** Arithmetic without rounding error. *)
Definition exact : Q -> Q := fun q => q.

Lemma exact_monotone : monotone exact.
Proof. intros x y H. exact H. Qed.

Lemma exact_fixes_one : fixes_one exact.
Proof. unfold fixes_one, exact. reflexivity. Qed.

Lemma monotone_Qeq (round : Q -> Q) (x y : Q) :
  monotone round -> (x == y)%Q -> (round x == round y)%Q.
Proof.
  intros Hm Hxy. apply Qle_antisym; apply Hm; rewrite Hxy; apply Qle_refl.
Qed.

Lemma lt_finite (x y : Q) :
  Js.lt (Js.Finite x) (Js.Finite y) = true <-> (x < y)%Q.
Proof.
  simpl. rewrite negb_true_iff. split.
  - intros H. apply Qnot_le_lt. intros Hle.
    apply Qle_bool_iff in Hle. congruence.
  - intros H. destruct (Qle_bool y x) eqn:E; [|reflexivity].
    apply Qle_bool_iff in E. exfalso. exact (Qlt_not_le _ _ H E).
Qed.

Lemma lt_whole (a b : Z) :
  Js.lt (Js.Finite (inject_Z a)) (Js.Finite (inject_Z b)) = (a <? b)%Z.
Proof.
  destruct (Z.ltb_spec a b) as [H|H].
  - apply lt_finite. rewrite <- Zlt_Qlt. exact H.
  - destruct (Js.lt _ _) eqn:E; [|reflexivity].
    apply lt_finite in E. rewrite <- Zlt_Qlt in E. lia.
Qed.

Lemma to_string_whole (digits : Q -> string) (z : Z) :
  (Z.abs z <= 2 ^ 53)%Z ->
  to_string digits (Js.Finite (inject_Z z)) = decimal z.
Proof.
  intros H. unfold to_string, whole, inject_Z. cbn [Qnum Qden].
  rewrite Z.mod_1_r, Z.div_1_r. cbn [Z.eqb].
  apply Z.leb_le in H. now rewrite H.
Qed.

(** Two more facts about the machine's rounding, used where a result
    has to be exact: integers up to 2^53 are stored exactly, and between
    2^-53 and 2^53 a result is not more than one part in 2^53 above the
    exact value.  IEEE 754 double precision has both. *)
Definition exact_on_integers (round : Q -> Q) : Prop :=
  forall z, (Z.abs z <= 2 ^ 53)%Z -> (round (inject_Z z) == inject_Z z)%Q.

Definition accurate (round : Q -> Q) : Prop :=
  forall x, (1 / inject_Z (2 ^ 53) <= x)%Q -> (x <= inject_Z (2 ^ 53))%Q ->
            (round x <= x + x / inject_Z (2 ^ 53))%Q.

Lemma exact_on_integers_exact : exact_on_integers exact.
Proof. intros z _. reflexivity. Qed.

Lemma accurate_exact : accurate exact.
Proof.
  intros x Hx _. unfold exact.
  assert (H : (0 <= x / inject_Z (2 ^ 53))%Q).
  { apply Qle_shift_div_l; [reflexivity|]. rewrite Qmult_0_l.
    eapply Qle_trans; [|exact Hx]. discriminate. }
  lra.
Qed.

(** Dividing something not below [c * n] by [c] and taking the floor
    gives at least [n], when [n] is stored exactly. *)
Lemma floor_div_ge (round : Q -> Q) (x : Q) (c n : Z) :
  monotone round -> (round (inject_Z n) == inject_Z n)%Q ->
  (0 < c)%Z -> (inject_Z (c * n) <= x)%Q ->
  (n <= Qfloor (round (x / inject_Z c)%Q))%Z.
Proof.
  intros Hm Hn Hc Hx.
  rewrite <- (Qfloor_Z n). apply Qfloor_resp_le.
  rewrite <- Hn. apply Hm.
  apply Qle_shift_div_l.
  - rewrite Zlt_Qlt in Hc. exact Hc.
  - rewrite <- inject_Z_mult, Z.mul_comm. exact Hx.
Qed.

(** Dividing something not below the divisor and taking the floor gives
    at least one. *)
Lemma floor_div_ge_one (round : Q -> Q) (x : Q) (c : Z) :
  monotone round -> fixes_one round ->
  (0 < c)%Z -> (inject_Z c <= x)%Q ->
  (1 <= Qfloor (round (x / inject_Z c)%Q))%Z.
Proof.
  intros Hm H1 Hc Hx.
  rewrite <- (Qfloor_Z 1). apply Qfloor_resp_le.
  unfold fixes_one in H1. rewrite <- H1. apply Hm.
  apply Qle_shift_div_l.
  - rewrite Zlt_Qlt in Hc. exact Hc.
  - rewrite Qmult_1_l. exact Hx.
Qed.

End JsMath.

(** ** components/ProjectTable.tsx: the helpers of a row *)

Module ProjectRow.

(** The em dash the cells show for a missing value. *)
Definition DASH : string := "—".

Section Row.

Variable round : Q -> Q.
Variable digits : Q -> string.

(** [timeAgo(ts)], at the clock reading [Date_now] (milliseconds). *)
Definition timeAgo (Date_now : Z) (ts : option Js.number) : string :=
  match ts with
  | None => DASH
  | Some t =>
      if negb (Js.truthy_number t) then DASH
      else
        let diff := Js.sub round (ProjectTable.now round Date_now) t in
        let mins := JsMath.floor (JsMath.div_by round diff 60) in
        if Js.lt mins (Js.Finite 1) then "now"
        else if Js.lt mins (Js.Finite 60)
        then (JsMath.to_string digits mins ++ "m")%string
        else
          let hrs := JsMath.floor (JsMath.div_by round mins 60) in
          if Js.lt hrs (Js.Finite 24)
          then (JsMath.to_string digits hrs ++ "h")%string
          else
            let days := JsMath.floor (JsMath.div_by round hrs 24) in
            if Js.lt days (Js.Finite 30)
            then (JsMath.to_string digits days ++ "d")%string
            else
              (JsMath.to_string digits
                 (JsMath.floor (JsMath.div_by round days 30)) ++ "mo")%string
  end.

(** [isRecent(ts, thresholdS)], at the clock reading [Date_now]. *)
Definition isRecent (Date_now : Z) (ts : option Js.number)
    (thresholdS : Js.number) : bool :=
  match ts with
  | None => false
  | Some t =>
      if negb (Js.truthy_number t) then false
      else Js.lt (Js.sub round (ProjectTable.now round Date_now) t) thresholdS
  end.

(** The flags [ProjectRow] computes before it renders. *)
Definition hasServer (data : ProjectTable.DashboardProjectFull) : bool :=
  (0 <? length (ProjectTable.servers data))%nat.

Definition hasClaude (data : ProjectTable.DashboardProjectFull) : bool :=
  (0 <? length (ProjectTable.claude data))%nat.

Definition isRecentCommit (Date_now : Z)
    (data : ProjectTable.DashboardProjectFull) : bool :=
  isRecent Date_now (ProjectTable.commit_ts (ProjectTable.git data))
    (Js.Finite 3600).

Definition isDimBranch (data : ProjectTable.DashboardProjectFull) : bool :=
  existsb (String.eqb (ProjectTable.branch (ProjectTable.git data)))
    ["main"; "master"].

End Row.

(** *** The clock and the age of a commit *)

Lemma now_monotone (round : Q -> Q) (a b : Z) :
  JsMath.monotone round -> (a <= b)%Z ->
  match ProjectTable.now round a, ProjectTable.now round b with
  | Js.Finite x, Js.Finite y => (x <= y)%Q
  | _, _ => False
  end.
Proof.
  intros Hm Hab. unfold ProjectTable.now. apply Hm.
  apply Qmult_le_compat_r.
  - rewrite <- Zle_Qle. exact Hab.
  - discriminate.
Qed.

(** A commit that is recent at a later clock reading, for a threshold of
    at most seven days, is younger than seven days at an earlier one. *)
Lemma recent_later_young_earlier (round : Q -> Q) (a b : Z)
    (ts : option Js.number) (threshold : Q) :
  JsMath.monotone round -> (a <= b)%Z -> (threshold <= 7 * 24 * 3600)%Q ->
  isRecent round b ts (Js.Finite threshold) = true ->
  forall p, ProjectTable.commit_ts (ProjectTable.git p) = ts ->
  Js.lt (ProjectTable.commitAge round (ProjectTable.now round a) p)
    ProjectTable.SEVEN_DAYS = true.
Proof.
  intros Hm Hab Hth Hrec p Hp.
  unfold ProjectTable.commitAge. rewrite Hp.
  unfold isRecent in Hrec. destruct ts as [t|]; [|discriminate].
  destruct (Js.truthy_number t) eqn:Et; [|discriminate]. cbn [negb] in Hrec.
  pose proof (now_monotone round a b Hm Hab) as Hnow.
  unfold ProjectTable.now in *.
  destruct t as [y| | |]; cbn [Js.sub] in *; try discriminate; try reflexivity.
  unfold ProjectTable.SEVEN_DAYS.
  apply JsMath.lt_finite in Hrec. apply JsMath.lt_finite.
  eapply Qle_lt_trans; [|eapply Qlt_le_trans; [exact Hrec|exact Hth]].
  apply Hm. apply Qplus_le_compat; [exact Hnow|apply Qle_refl].
Qed.

(** X1. A row that glows (commit within the hour at the moment the row is
    rendered), whose dot pulses (a server) or that shows the Claude badge
    belongs to the main table and not to the inactive one, provided the
    rounding preserves order and the clock did not go back between the
    table's reading and the row's. *)
Theorem live_row_is_active (round : Q -> Q)
    (projects : list ProjectTable.DashboardProjectFull)
    (Date_now Row_now : Z) (p : ProjectTable.DashboardProjectFull) :
  JsMath.monotone round ->
  (Date_now <= Row_now)%Z ->
  In p projects ->
  isRecentCommit round Row_now p = true
  \/ hasServer p = true \/ hasClaude p = true ->
  In p (ProjectTable.active round projects Date_now)
  /\ ~ In p (ProjectTable.inactive round projects Date_now).
Proof.
  intros Hm Hclock Hin Hlive.
  assert (Hact : ProjectTable.isActive round
                   (ProjectTable.now round Date_now) p = true).
  { unfold ProjectTable.isActive.
    destruct Hlive as [Hrec|[Hs|Hc]].
    - rewrite (recent_later_young_earlier round Date_now Row_now _ 3600
                 Hm Hclock ltac:(discriminate) Hrec p eq_refl).
      reflexivity.
    - unfold hasServer in Hs. rewrite Hs. now rewrite orb_true_r.
    - unfold hasClaude in Hc. rewrite Hc. now rewrite orb_true_r. }
  unfold ProjectTable.active, ProjectTable.inactive.
  rewrite !filter_In, ProjectTable.isInactive_negb_isActive, Hact.
  split; [tauto|]. intros [_ H]. discriminate H.
Qed.

(** The theorem on the first sample project, rendered five milliseconds
    after the table read the clock. *)
Lemma live_row_is_active_sample :
  let p := ProjectTable.sample 1 (Some (Js.Finite 1699999940%Q)) [] in
  In p (ProjectTable.active JsMath.exact ProjectTable.sample_projects
          ProjectTable.sample_now)
  /\ ~ In p (ProjectTable.inactive JsMath.exact ProjectTable.sample_projects
               ProjectTable.sample_now).
Proof.
  apply (live_row_is_active JsMath.exact ProjectTable.sample_projects
           ProjectTable.sample_now (ProjectTable.sample_now + 5)).
  - exact JsMath.exact_monotone.
  - unfold ProjectTable.sample_now. lia.
  - left. reflexivity.
  - left. reflexivity.
Defined.

(** *** The label of [timeAgo] *)

(** The literal [1] is the integer one, and a count below 60 is printed
    in decimal. *)
Lemma finite_one : Js.Finite 1 = Js.Finite (inject_Z 1).
Proof. reflexivity. Qed.

Lemma small_decimal (digits : Q -> string) (n bound : Z) :
  (1 <= n)%Z -> (n < bound)%Z -> (bound <= 60)%Z ->
  JsMath.to_string digits (Js.Finite (inject_Z n)) = JsMath.decimal n.
Proof.
  intros H1 H2 H3. apply JsMath.to_string_whole.
  change (2 ^ 53)%Z with 9007199254740992%Z. lia.
Qed.

(** Specification-side notion: the labels an age cell may show for the
    timestamp [ts].  The dash stands for a null, 0 or NaN timestamp;
    otherwise the label is "now" or a whole count of at least one
    followed by its unit, minutes up to 59, hours up to 23, days up to
    29, months beyond; the timestamp [-Infinity] alone gives the word
    Infinity as count. *)
Definition ago_label (digits : Q -> string) (ts : option Js.number)
    (s : string) : Prop :=
  (s = DASH /\ (ts = None \/ exists t, ts = Some t
                                      /\ Js.truthy_number t = false))
  \/ (exists t, ts = Some t /\ Js.truthy_number t = true /\
       (s = "now"
        \/ (exists n, (1 <= n <= 59)%Z /\ s = (JsMath.decimal n ++ "m")%string)
        \/ (exists n, (1 <= n <= 23)%Z /\ s = (JsMath.decimal n ++ "h")%string)
        \/ (exists n, (1 <= n <= 29)%Z /\ s = (JsMath.decimal n ++ "d")%string)
        \/ (exists n, (1 <= n)%Z /\
                      s = (JsMath.to_string digits (Js.Finite (inject_Z n))
                           ++ "mo")%string)
        \/ (t = Js.NegInfinity /\ s = "Infinitymo"))).

(** X2. Whatever the timestamp and the clock, [timeAgo] gives one of the
    labels of [ago_label]: the dash exactly for a null, 0 or NaN
    timestamp, else "now" or a count of at least one with its unit
    (minutes below 60, hours below 24, days below 30, months beyond).  It
    never shows a zero, a negative or a NaN count.  The rounding is
    assumed to preserve order and to leave 1 alone. *)
Theorem timeAgo_label (round : Q -> Q) (digits : Q -> string)
    (Date_now : Z) (ts : option Js.number) :
  JsMath.monotone round -> JsMath.fixes_one round ->
  ago_label digits ts (timeAgo round digits Date_now ts).
Proof.
  intros Hm H1. unfold ago_label, timeAgo.
  destruct ts as [t|]; [|left; split; [reflexivity|left; reflexivity]].
  destruct (Js.truthy_number t) eqn:Et; cbn [negb];
    [|left; split; [reflexivity|right; exists t; split; reflexivity || assumption]].
  right. exists t. split; [reflexivity|]. split; [exact Et|].
  unfold ProjectTable.now.
  destruct t as [y| | |]; cbn [Js.sub JsMath.div_by JsMath.floor];
    try discriminate Et.
  - (* a finite timestamp *)
    set (m := Qfloor (round (round (round (inject_Z Date_now / 1000) - y) / 60)%Q)).
    rewrite finite_one.
    change (Js.Finite 60) with (Js.Finite (inject_Z 60)).
    change (Js.Finite 24) with (Js.Finite (inject_Z 24)).
    change (Js.Finite 30) with (Js.Finite (inject_Z 30)).
    rewrite !JsMath.lt_whole.
    destruct (Z.ltb_spec m 1) as [Hm1|Hm1]; [left; reflexivity|].
    destruct (Z.ltb_spec m 60) as [Hm60|Hm60].
    { right; left. exists m. split; [lia|].
      now rewrite (small_decimal digits m 60) by lia. }
    set (h := Qfloor (round (inject_Z m / 60)%Q)).
    assert (Hh : (1 <= h)%Z).
    { apply (JsMath.floor_div_ge_one round (inject_Z m) 60 Hm H1); [lia|].
      rewrite <- Zle_Qle. exact Hm60. }
    destruct (Z.ltb_spec h 24) as [Hh24|Hh24].
    { right; right; left. exists h. split; [lia|].
      now rewrite (small_decimal digits h 24) by lia. }
    set (d := Qfloor (round (inject_Z h / 24)%Q)).
    assert (Hd : (1 <= d)%Z).
    { apply (JsMath.floor_div_ge_one round (inject_Z h) 24 Hm H1); [lia|].
      rewrite <- Zle_Qle. exact Hh24. }
    destruct (Z.ltb_spec d 30) as [Hd30|Hd30].
    { right; right; right; left. exists d. split; [lia|].
      now rewrite (small_decimal digits d 30) by lia. }
    right; right; right; right; left.
    exists (Qfloor (round (inject_Z d / 30)%Q)). split; [|reflexivity].
    apply (JsMath.floor_div_ge_one round (inject_Z d) 30 Hm H1); [lia|].
    rewrite <- Zle_Qle. exact Hd30.
  - (* +Infinity: the age is -Infinity *)
    left. reflexivity.
  - (* -Infinity: the age is +Infinity *)
    right; right; right; right; right. split; reflexivity.
Qed.

(** *** The age shown in the inactive table *)

Lemma ge_finite (x y : Q) :
  Js.ge (Js.Finite x) (Js.Finite y) = true <-> (y <= x)%Q.
Proof. simpl. apply Qle_bool_iff. Qed.

(** X9. A project listed as inactive never shows an age below a week:
    its age cell is the dash, a count of days from 7 to 29, or a count of
    months (the word Infinity for the timestamp [-Infinity]).  The
    rounding is assumed to preserve order and to store integers up to
    2^53 exactly, and the clock not to go back between the table's
    reading and the row's. *)
Theorem inactive_row_shows_a_week_or_more (round : Q -> Q)
    (digits : Q -> string)
    (projects : list ProjectTable.DashboardProjectFull)
    (Date_now Row_now : Z) (p : ProjectTable.DashboardProjectFull) :
  JsMath.monotone round -> JsMath.exact_on_integers round ->
  (Date_now <= Row_now)%Z ->
  In p (ProjectTable.inactive round projects Date_now) ->
  let s := timeAgo round digits Row_now
             (ProjectTable.commit_ts (ProjectTable.git p)) in
  s = DASH
  \/ (exists n, (7 <= n <= 29)%Z /\ s = (JsMath.decimal n ++ "d")%string)
  \/ (exists n, (1 <= n)%Z /\
                s = (JsMath.to_string digits (Js.Finite (inject_Z n))
                     ++ "mo")%string)
  \/ s = "Infinitymo".
Proof.
  intros Hm He Hclock Hin. cbv zeta.
  unfold ProjectTable.inactive in Hin. apply filter_In in Hin.
  destruct Hin as [_ Hin]. unfold ProjectTable.isInactive in Hin.
  apply andb_true_iff in Hin. destruct Hin as [Hin _].
  apply andb_true_iff in Hin. destruct Hin as [Hage _].
  unfold ProjectTable.commitAge in Hage. unfold timeAgo.
  destruct (ProjectTable.commit_ts (ProjectTable.git p)) as [t|];
    [|left; reflexivity].
  destruct (Js.truthy_number t) eqn:Et; cbn [negb]; [|left; reflexivity].
  pose proof (now_monotone round Date_now Row_now Hm Hclock) as Hnow.
  unfold ProjectTable.now, ProjectTable.SEVEN_DAYS in *.
  destruct t as [y| | |]; cbn [Js.sub JsMath.div_by JsMath.floor] in *;
    try discriminate.
  - apply ge_finite in Hage.
    set (diff := round (round (inject_Z Row_now / 1000) - y)%Q) in *.
    assert (Hdiff : (inject_Z (60 * 10080) <= diff)%Q).
    { eapply Qle_trans; [exact Hage|]. apply Hm.
      apply Qplus_le_compat; [exact Hnow|apply Qle_refl]. }
    set (m := Qfloor (round (diff / 60)%Q)).
    assert (Hmins : (10080 <= m)%Z).
    { apply (JsMath.floor_div_ge round diff 60 10080 Hm); [|lia|exact Hdiff].
      apply He. discriminate. }
    set (h := Qfloor (round (inject_Z m / 60)%Q)).
    assert (Hh : (168 <= h)%Z).
    { apply (JsMath.floor_div_ge round (inject_Z m) 60 168 Hm); [|lia|].
      - apply He. discriminate.
      - rewrite <- Zle_Qle. lia. }
    set (d := Qfloor (round (inject_Z h / 24)%Q)).
    assert (Hd : (7 <= d)%Z).
    { apply (JsMath.floor_div_ge round (inject_Z h) 24 7 Hm); [|lia|].
      - apply He. discriminate.
      - rewrite <- Zle_Qle. lia. }
    rewrite finite_one.
    change (Js.Finite 60) with (Js.Finite (inject_Z 60)).
    change (Js.Finite 24) with (Js.Finite (inject_Z 24)).
    change (Js.Finite 30) with (Js.Finite (inject_Z 30)).
    rewrite !JsMath.lt_whole.
    destruct (Z.ltb_spec m 1); [lia|].
    destruct (Z.ltb_spec m 60); [lia|].
    destruct (Z.ltb_spec h 24); [lia|].
    destruct (Z.ltb_spec d 30) as [Hd30|Hd30].
    { right; left. exists d. split; [lia|].
      now rewrite (small_decimal digits d 30) by lia. }
    right; right; left.
    exists (Qfloor (round (inject_Z d / 30)%Q)). split; [|reflexivity].
    apply (JsMath.floor_div_ge round (inject_Z d) 30 1 Hm); [|lia|].
    + apply He. discriminate.
    + rewrite <- Zle_Qle. lia.
  - right; right; right. reflexivity.
Qed.

(** A conversion for the samples, where no fraction is printed. *)
Definition no_digits : Q -> string := fun _ => "".

(** The theorem at the sample clock, for a commit a minute old. *)
Lemma timeAgo_label_sample :
  ago_label no_digits (Some (Js.Finite 1699999940%Q))
    (timeAgo JsMath.exact no_digits ProjectTable.sample_now
       (Some (Js.Finite 1699999940%Q)))
  /\ timeAgo JsMath.exact no_digits ProjectTable.sample_now
       (Some (Js.Finite 1699999940%Q)) = "1m".
Proof.
  split; [|reflexivity].
  apply timeAgo_label.
  - exact JsMath.exact_monotone.
  - exact JsMath.exact_fixes_one.
Defined.

(** The theorem on the fifth sample project, committed seven days before
    the table read the clock and rendered five milliseconds later. *)
Lemma inactive_row_sample :
  let p := ProjectTable.sample 5 (Some (Js.Finite 1699395200%Q)) [] in
  let s := timeAgo JsMath.exact no_digits (ProjectTable.sample_now + 5)
             (ProjectTable.commit_ts (ProjectTable.git p)) in
  s = DASH
  \/ (exists n, (7 <= n <= 29)%Z /\ s = (JsMath.decimal n ++ "d")%string)
  \/ (exists n, (1 <= n)%Z /\
                s = (JsMath.to_string no_digits (Js.Finite (inject_Z n))
                     ++ "mo")%string)
  \/ s = "Infinitymo".
Proof.
  apply (inactive_row_shows_a_week_or_more JsMath.exact no_digits
           ProjectTable.sample_projects ProjectTable.sample_now
           (ProjectTable.sample_now + 5)).
  - exact JsMath.exact_monotone.
  - exact JsMath.exact_on_integers_exact.
  - unfold ProjectTable.sample_now. lia.
  - vm_compute. right; right; left. reflexivity.
Defined.

End ProjectRow.

(** ** frontend/src/api/client.ts: the exported calls *)

Module Api.

Section Calls.

(** The network, and three conversions of the platform: [JSON.stringify],
    [new URLSearchParams(params).toString()], and the digits of a number
    that is not a small integer. *)
Variable fetch : string -> Client.RequestInit -> Js.settled Client.Response.
Variable stringify : Js.json -> string.
Variable urlencode : list (string * string) -> string.
Variable digits : Q -> string.

(** [{ method: 'POST' }] *)
Definition post_empty : option Client.RequestInit :=
  Some {| Client.method := Some "POST"; Client.headers := None;
          Client.body := None |}.

(** [{ method, body: JSON.stringify(data) }] *)
Definition with_body (method : string) (data : Js.json)
  : option Client.RequestInit :=
  Some {| Client.method := Some method; Client.headers := None;
          Client.body := Some (stringify data) |}.

Definition getDashboard : Js.settled Js.json :=
  Client.request fetch "/dashboard" None.

Definition getFullDashboard : Js.settled Js.json :=
  Client.request fetch "/dashboard/full" None.

Definition takeSnapshot : Js.settled Js.json :=
  Client.request fetch "/dashboard/snapshot" post_empty.

Definition getSystemOverview : Js.settled Js.json :=
  Client.request fetch "/system/overview" None.

Definition getProjects : Js.settled Js.json :=
  Client.request fetch "/projects" None.

Definition discoverProjects : Js.settled Js.json :=
  Client.request fetch "/projects/discover" post_empty.

(** [params ? '?' + new URLSearchParams(params).toString() : ''] *)
Definition getTickets (params : option (list (string * string)))
  : Js.settled Js.json :=
  let qs := match params with
            | Some p => ("?" ++ urlencode p)%string
            | None => ""
            end in
  Client.request fetch ("/tickets" ++ qs)%string None.

Definition createTicket (data : Js.json) : Js.settled Js.json :=
  Client.request fetch "/tickets" (with_body "POST" data).

(** [`/tickets/${id}`] *)
Definition updateTicket (id : Z) (data : Js.json) : Js.settled Js.json :=
  Client.request fetch
    ("/tickets/" ++ JsMath.to_string digits (Js.Finite (inject_Z id)))%string
    (with_body "PUT" data).

(** [(limit = 50) => request(`/feed?limit=${limit}`)]: the default is used
    when the argument is left out. *)
Definition getFeed (limit : option Js.number) : Js.settled Js.json :=
  let limit := match limit with
               | Some n => n
               | None => Js.Finite 50
               end in
  Client.request fetch
    ("/feed?limit=" ++ JsMath.to_string digits limit)%string None.

Definition postUpdate (data : Js.json) : Js.settled Js.json :=
  Client.request fetch "/feed" (with_body "POST" data).

Definition scanSessions : Js.settled Js.json :=
  Client.request fetch "/insights/scan-sessions" post_empty.

Definition scoreAll : Js.settled Js.json :=
  Client.request fetch "/insights/score-all" post_empty.

End Calls.

(** Specification-side notion: one call of an exported function, with its
    arguments. *)
Inductive call : Type :=
| GetDashboard
| GetFullDashboard
| TakeSnapshot
| GetSystemOverview
| GetProjects
| DiscoverProjects
| GetTickets (params : option (list (string * string)))
| CreateTicket (data : Js.json)
| UpdateTicket (id : Z) (data : Js.json)
| GetFeed (limit : option Js.number)
| PostUpdate (data : Js.json)
| ScanSessions
| ScoreAll.

Definition perform
    (fetch : string -> Client.RequestInit -> Js.settled Client.Response)
    (stringify : Js.json -> string)
    (urlencode : list (string * string) -> string)
    (digits : Q -> string) (c : call) : Js.settled Js.json :=
  match c with
  | GetDashboard => getDashboard fetch
  | GetFullDashboard => getFullDashboard fetch
  | TakeSnapshot => takeSnapshot fetch
  | GetSystemOverview => getSystemOverview fetch
  | GetProjects => getProjects fetch
  | DiscoverProjects => discoverProjects fetch
  | GetTickets params => getTickets fetch urlencode params
  | CreateTicket data => createTicket fetch stringify data
  | UpdateTicket id data => updateTicket fetch stringify digits id data
  | GetFeed limit => getFeed fetch digits limit
  | PostUpdate data => postUpdate fetch stringify data
  | ScanSessions => scanSessions fetch
  | ScoreAll => scoreAll fetch
  end.

(** Specification-side notion: a request the backend's API is meant to
    see, a URL under [/api/] announced as JSON. *)
Definition api_request (url : string) (init : Client.RequestInit) : Prop :=
  String.prefix "/api/" url = true
  /\ Client.headers init = Some [("Content-Type", "application/json")].

(** [request] looks at the network at one place only. *)
Lemma request_extensional
    (f g : string -> Client.RequestInit -> Js.settled Client.Response)
    (path : string) (options : option Client.RequestInit) :
  f (Client.BASE ++ path)%string (Client.init options)
  = g (Client.BASE ++ path)%string (Client.init options) ->
  Client.request f path options = Client.request g path options.
Proof. intros H. unfold Client.request. now rewrite H. Qed.

(** X3. Every call of an exported function of the client reaches the
    network only through a URL under [/api/] and with exactly the JSON
    content-type header, whatever its arguments: two networks that answer
    such requests alike give the same outcome for every call. *)
Theorem calls_stay_under_api
    (f g : string -> Client.RequestInit -> Js.settled Client.Response)
    (stringify : Js.json -> string)
    (urlencode : list (string * string) -> string)
    (digits : Q -> string) (c : call) :
  (forall url init, api_request url init -> f url init = g url init) ->
  perform f stringify urlencode digits c
  = perform g stringify urlencode digits c.
Proof.
  intros Hfg.
  destruct c; cbn [perform];
    apply request_extensional; apply Hfg; split; reflexivity.
Qed.

(** A network that answers requests under [/api/] announced as JSON and
    is down for everything else. *)
Definition api_only (res : Client.Response)
  : string -> Client.RequestInit -> Js.settled Client.Response :=
  fun url init =>
    if String.prefix "/api/" url
    then match Client.headers init with
         | Some [(k, v)] =>
             if (String.eqb k "Content-Type"
                 && String.eqb v "application/json")%bool
             then Js.Fulfilled res
             else Js.Rejected (Js.TypeError "Failed to fetch")
         | _ => Js.Rejected (Js.TypeError "Failed to fetch")
         end
    else Js.Rejected (Js.TypeError "Failed to fetch").

Definition plain_stringify : Js.json -> string := fun _ => "{}".
Definition plain_urlencode : list (string * string) -> string :=
  fun _ => "limit=200".

(** The theorem on the two sample networks: moving ticket 7 cannot tell
    the restricted network from the one that answers everything. *)
Lemma calls_stay_under_api_sample :
  perform (Client.serve Client.tickets_page) plain_stringify plain_urlencode
    (fun _ => "") (UpdateTicket 7 (Js.JObject [("status", Js.JString "done")]))
  = perform (api_only Client.tickets_page) plain_stringify plain_urlencode
      (fun _ => "") (UpdateTicket 7 (Js.JObject [("status", Js.JString "done")])).
Proof.
  apply calls_stay_under_api.
  intros url init [Hurl Hh]. unfold Client.serve, api_only.
  rewrite Hurl, Hh. reflexivity.
Defined.

End Api.

(** ** pages/Dashboard.tsx *)

Module Dashboard.






(** [useState<FullDashboardResponse | null>(null)] and [useState(true)]. *)
Record State : Type := {
  data : Js.json;
  loading : bool
}.


(** [refresh()], once its request has settled: the new state and what
    [console.error] received. *)
Definition refresh
    (fetch : string -> Client.RequestInit -> Js.settled Client.Response)
    (st : State) : State * list Js.error :=
  match Api.getFullDashboard fetch with
  | Js.Fulfilled d => ({| data := d; loading := false |}, [])
  | Js.Rejected err => ({| data := data st; loading := false |}, [err])
  end.

(** What drawing the page gives: the loading line; the strip, the table
    and the feed drawn from [data]; or nothing, when an error is thrown
    on the way. *)
Inductive View : Type :=
| Loading
| Content (data : Js.json)
| Blank.


(** The page between two events: mounted, with its state and what it
    shows, or gone.  The sources show no error boundary (App.tsx puts
    none around the routes), so an error thrown while drawing makes React
    remove the page with its state; the cleanup of the effect then stops
    the interval. *)
Inductive Page : Type :=
| Mounted (st : State) (screen : View)
| Gone.


Definition screen (page : Page) : View :=
  match page with
  | Mounted _ v => v
  | Gone => Blank
  end.

















(** *** The strip and the table *)

(** What the content draws from [data] for the strip and the table:
    [projectCount={data.projects.length}] and
    [<ProjectTable projects={data.projects} />]. *)
Record Drawn : Type := {
  projectCount : nat;
  table : ProjectTable.View
}.

Section Draw.

Variable round : Q -> Q.

(** [data.projects], for a body of the declared type
    [FullDashboardResponse]. *)
Variable projects_of : Js.json -> list ProjectTable.DashboardProjectFull.

Definition draw (data : Js.json) (Date_now : Z) (showInactive : bool)
  : Drawn :=
  {| projectCount := length (projects_of data);
     table := ProjectTable.ProjectTable round (projects_of data) Date_now
                showInactive |}.

End Draw.

(** The number on the button of the inactive section, 0 without one. *)
Definition inactive_count (v : ProjectTable.View) : nat :=
  match ProjectTable.inactive_section v with
  | Some sec => ProjectTable.button_count sec
  | None => 0
  end.

(** X5. The project count of the status strip is the number of rows of
    the main table plus the number on the "inactive" button (none when
    the button is absent), whatever the data, the clock, the rounding
    and the state of the toggle. *)
Theorem strip_count_is_rows_plus_inactive (round : Q -> Q)
    (projects_of : Js.json -> list ProjectTable.DashboardProjectFull)
    (data : Js.json) (Date_now : Z) (showInactive : bool) :
  let d := draw round projects_of data Date_now showInactive in
  projectCount d
  = length (ProjectTable.rows (table d)) + inactive_count (table d).
Proof.
  cbv zeta. unfold draw, inactive_count, ProjectTable.ProjectTable.
  cbn [projectCount table ProjectTable.rows ProjectTable.inactive_section].
  set (ps := projects_of data).
  pose proof (Permutation_length
                (ProjectTable.filter_split_perm _ _ ps
                   (ProjectTable.isInactive_negb_isActive round Date_now)))
    as Hlen.
  rewrite length_app in Hlen.
  fold (ProjectTable.active round ps Date_now) in Hlen.
  fold (ProjectTable.inactive round ps Date_now) in Hlen.
  rewrite <- Hlen.
  destruct (ProjectTable.inactive round ps Date_now) as [|p l];
    cbn [length Nat.ltb Nat.leb ProjectTable.button_count]; reflexivity.
Qed.

End Dashboard.

(** ** pages/Tickets.tsx: the handlers *)

Module TicketsPage.

(** The two pieces of state of the page. *)
Record State : Type := {
  tickets : list Tickets.Ticket;
  dragging : option Z
}.

Section Handlers.

Variable fetch : string -> Client.RequestInit -> Js.settled Client.Response.
Variable stringify : Js.json -> string.
Variable urlencode : list (string * string) -> string.
Variable digits : Q -> string.

(** [data.tickets], for a body of the declared type
    [{ tickets: Ticket[]; total: number }]. *)
Variable tickets_of : Js.json -> list Tickets.Ticket.

(** [refresh()], once its request has settled: a rejection leaves the
    page as it is. *)
Definition refresh (st : State) : State :=
  match Api.getTickets fetch urlencode (Some [("limit", "200")]) with
  | Js.Fulfilled data =>
      {| tickets := tickets_of data; dragging := dragging st |}
  | Js.Rejected _ => st
  end.

(** [handleDragStart(e, ticketId)] *)
Definition handleDragStart (ticketId : Z) (st : State) : State :=
  {| tickets := tickets st; dragging := Some ticketId |}.



End Handlers.






End TicketsPage.

(** ** components/CompactFeed.tsx: the age of an update *)

Module CompactFeed.

Section Feed.

Variable round : Q -> Q.
Variable digits : Q -> string.

(** [new Date(dateStr).getTime()]: NaN when the string is not a date. *)
Variable getTime : string -> Js.number.

(** [timeAgo(dateStr)], at the clock reading [Date_now] (milliseconds). *)
Definition timeAgo (Date_now : Z) (dateStr : string) : string :=
  let diff := Js.sub round (Js.Finite (inject_Z Date_now)) (getTime dateStr) in
  let mins := JsMath.floor (JsMath.div_by round diff 60000) in
  if Js.lt mins (Js.Finite 1) then "now"
  else if Js.lt mins (Js.Finite 60)
  then (JsMath.to_string digits mins ++ "m")%string
  else
    let hrs := JsMath.floor (JsMath.div_by round mins 60) in
    if Js.lt hrs (Js.Finite 24)
    then (JsMath.to_string digits hrs ++ "h")%string
    else
      (JsMath.to_string digits
         (JsMath.floor (JsMath.div_by round hrs 24)) ++ "d")%string.

End Feed.

(** Specification-side notion: the labels the feed may show for an update
    whose date reads as [t]. *)
Definition feed_label (digits : Q -> string) (t : Js.number) (s : string)
  : Prop :=
  match t with
  | Js.NaN => s = "NaNd"
  | Js.NegInfinity => s = "Infinityd"
  | _ =>
      s = "now"
      \/ (exists n, (1 <= n <= 59)%Z /\ s = (JsMath.decimal n ++ "m")%string)
      \/ (exists n, (1 <= n <= 23)%Z /\ s = (JsMath.decimal n ++ "h")%string)
      \/ (exists n, (1 <= n)%Z /\
                    s = (JsMath.to_string digits (Js.Finite (inject_Z n))
                         ++ "d")%string)
  end.

(** X7. For an update whose [created_at] is not a date the feed shows
    "NaNd".  For every other update it shows "now" or a whole count of at
    least one with its unit: minutes up to 59, hours up to 23, days
    beyond.  The rounding is assumed to preserve order and to leave 1
    alone. *)
Theorem feed_timeAgo_label (round : Q -> Q) (digits : Q -> string)
    (getTime : string -> Js.number) (Date_now : Z) (dateStr : string) :
  JsMath.monotone round -> JsMath.fixes_one round ->
  feed_label digits (getTime dateStr)
    (timeAgo round digits getTime Date_now dateStr).
Proof.
  intros Hm H1. unfold feed_label, timeAgo.
  destruct (getTime dateStr) as [y| | |];
    cbn [Js.sub JsMath.div_by JsMath.floor]; try reflexivity.
  - set (m := Qfloor (round (round (inject_Z Date_now - y) / 60000)%Q)).
    rewrite ProjectRow.finite_one.
    change (Js.Finite 60) with (Js.Finite (inject_Z 60)).
    change (Js.Finite 24) with (Js.Finite (inject_Z 24)).
    rewrite !JsMath.lt_whole.
    destruct (Z.ltb_spec m 1) as [Hm1|Hm1]; [left; reflexivity|].
    destruct (Z.ltb_spec m 60) as [Hm60|Hm60].
    { right; left. exists m. split; [lia|].
      now rewrite (ProjectRow.small_decimal digits m 60) by lia. }
    set (h := Qfloor (round (inject_Z m / 60)%Q)).
    assert (Hh : (1 <= h)%Z).
    { apply (JsMath.floor_div_ge_one round (inject_Z m) 60 Hm H1); [lia|].
      rewrite <- Zle_Qle. exact Hm60. }
    destruct (Z.ltb_spec h 24) as [Hh24|Hh24].
    { right; right; left. exists h. split; [lia|].
      now rewrite (ProjectRow.small_decimal digits h 24) by lia. }
    right; right; right.
    exists (Qfloor (round (inject_Z h / 24)%Q)). split; [|reflexivity].
    apply (JsMath.floor_div_ge_one round (inject_Z h) 24 Hm H1); [lia|].
    rewrite <- Zle_Qle. exact Hh24.
  - left. reflexivity.
Qed.

(** A reading of dates for the sample: one date is known, anything else
    is not a date. *)
Definition sample_getTime (s : string) : Js.number :=
  if String.eqb s "2023-11-14T22:10:20Z" then Js.Finite 1699999820000%Q
  else Js.NaN.

(** The theorem on an update three minutes old and on an unreadable
    date. *)
Lemma feed_timeAgo_sample :
  timeAgo JsMath.exact ProjectRow.no_digits sample_getTime
    ProjectTable.sample_now "yesterday" = "NaNd"
  /\ feed_label ProjectRow.no_digits (Js.Finite 1699999820000%Q)
       (timeAgo JsMath.exact ProjectRow.no_digits sample_getTime
          ProjectTable.sample_now "2023-11-14T22:10:20Z").
Proof.
  split.
  - exact (feed_timeAgo_label JsMath.exact ProjectRow.no_digits sample_getTime
             ProjectTable.sample_now "yesterday"
             JsMath.exact_monotone JsMath.exact_fixes_one).
  - exact (feed_timeAgo_label JsMath.exact ProjectRow.no_digits sample_getTime
             ProjectTable.sample_now "2023-11-14T22:10:20Z"
             JsMath.exact_monotone JsMath.exact_fixes_one).
Defined.

End CompactFeed.

(** ** components/SystemStatusStrip.tsx: [formatDuration] *)

Module Duration.

(** The integer part of a rational, towards zero. *)
Definition Qtrunc (x : Q) : Z :=
  if Qle_bool 0 x then Qfloor x else Qceiling x.

(** [a % c] for a positive numeric literal [c]: the remainder has the
    sign of [a], is computed without rounding error, and is NaN for an
    infinite [a]. *)
Definition rem (a : Js.number) (c : Q) : Js.number :=
  match a with
  | Js.Finite x => Js.Finite (x - c * inject_Z (Qtrunc (x / c)))%Q
  | _ => Js.NaN
  end.

(** [formatDuration(seconds)] *)
Definition formatDuration (round : Q -> Q) (digits : Q -> string)
    (seconds : Js.number) : string :=
  let h := JsMath.floor (JsMath.div_by round seconds 3600) in
  let m := JsMath.floor (JsMath.div_by round (rem seconds 3600) 60) in
  if Js.lt (Js.Finite 0) h
  then (JsMath.to_string digits h ++ "h "
        ++ JsMath.to_string digits m ++ "m")%string
  else (JsMath.to_string digits m ++ "m")%string.

Lemma Qfloor_unique (y : Q) (k : Z) :
  (inject_Z k <= y)%Q -> (y < inject_Z (k + 1))%Q -> Qfloor y = k.
Proof.
  intros Hl Hu.
  pose proof (Qfloor_le y) as H1. pose proof (Qlt_floor y) as H2.
  assert (A : (Qfloor y < k + 1)%Z).
  { rewrite Zlt_Qlt. eapply Qle_lt_trans; eassumption. }
  assert (B : (k < Qfloor y + 1)%Z).
  { rewrite Zlt_Qlt. eapply Qle_lt_trans; eassumption. }
  lia.
Qed.

(** On whole numbers far below 2^53 the rounded quotient has the floor
    of the exact one. *)
Lemma floor_div_whole (round : Q -> Q) (x : Q) (s c : Z) :
  JsMath.monotone round -> JsMath.exact_on_integers round -> JsMath.accurate round ->
  (0 < c)%Z -> (0 <= s)%Z -> (s + c < 2 ^ 53)%Z ->
  (x == inject_Z s)%Q ->
  Qfloor (round (x / inject_Z c)%Q) = (s / c)%Z.
Proof.
  intros Hm He Ha Hc Hs Hsmall Hx.
  pose proof (Z.div_mod s c ltac:(lia)) as Hdm.
  pose proof (Z.mod_pos_bound s c Hc) as Hr.
  pose proof (Z.div_pos s c Hs Hc) as Hk.
  set (k := (s / c)%Z) in *. set (r := (s mod c)%Z) in *.
  assert (Hkc : (c * k <= s)%Z) by lia.
  assert (HcQ : (0 < inject_Z c)%Q).
  { change 0%Q with (inject_Z 0). rewrite <- Zlt_Qlt. exact Hc. }
  set (q := (x / inject_Z c)%Q).
  assert (Hqc : (q * inject_Z c == inject_Z s)%Q).
  { unfold q. rewrite <- Hx. field. intros H0. rewrite H0 in HcQ.
    exact (Qlt_irrefl _ HcQ). }
  assert (Hlow : (inject_Z k <= q)%Q).
  { unfold q. apply Qle_shift_div_l; [exact HcQ|].
    rewrite Hx, <- inject_Z_mult, <- Zle_Qle. lia. }
  assert (Hq0 : (0 <= q)%Q).
  { eapply Qle_trans; [|exact Hlow]. change 0%Q with (inject_Z 0).
    rewrite <- Zle_Qle. exact Hk. }
  assert (Hup : (q + q / inject_Z (2 ^ 53) < inject_Z (k + 1))%Q).
  { (* multiply through by c * 2^53 *)
    set (P := (2 ^ 53)%Z) in *.
    assert (HP : (0 < inject_Z P)%Q) by reflexivity.
    assert (Hq1 : (q * inject_Z c <= inject_Z (c * k + c - 1))%Q).
    { rewrite Hqc, <- Zle_Qle. lia. }
    assert (E : (q + q / inject_Z P
                 == (q * inject_Z c) * (inject_Z (P + 1))
                    / (inject_Z c * inject_Z P))%Q).
    { rewrite inject_Z_plus. field. split; intros H0.
      - rewrite H0 in HP. exact (Qlt_irrefl _ HP).
      - rewrite H0 in HcQ. exact (Qlt_irrefl _ HcQ). }
    rewrite E. apply Qlt_shift_div_r.
    - rewrite <- (Qmult_0_l (inject_Z P)).
      apply Qmult_lt_compat_r; assumption.
    - eapply Qle_lt_trans.
      + apply Qmult_le_compat_r; [exact Hq1|].
        change 0%Q with (inject_Z 0). rewrite <- Zle_Qle. unfold P. lia.
      + rewrite <- !inject_Z_mult, <- Zlt_Qlt. unfold P in *. nia. }
  apply Qfloor_unique.
  - rewrite <- (He k) by (unfold k in *; lia). apply Hm. exact Hlow.
  - destruct (Z.eq_dec s 0) as [Hz|Hnz].
    + (* nothing to divide: the quotient is 0, stored exactly *)
      assert (Hq : (q == inject_Z 0)%Q).
      { unfold q. rewrite Hx, Hz. unfold Qdiv. apply Qmult_0_l. }
      rewrite (JsMath.monotone_Qeq round _ _ Hm Hq), (He 0%Z) by discriminate.
      rewrite <- Zlt_Qlt. lia.
    + assert (HC1 : (1 <= inject_Z c)%Q).
      { change 1%Q with (inject_Z 1). rewrite <- Zle_Qle. lia. }
      assert (HCP : (inject_Z c <= inject_Z (2 ^ 53))%Q).
      { rewrite <- Zle_Qle. lia. }
      assert (HS1 : (1 <= inject_Z s)%Q).
      { change 1%Q with (inject_Z 1). rewrite <- Zle_Qle. lia. }
      assert (HSP : (inject_Z s <= inject_Z (2 ^ 53))%Q).
      { rewrite <- Zle_Qle. lia. }
      eapply Qle_lt_trans; [apply Ha|exact Hup].
      * apply Qle_shift_div_r; [reflexivity|]. nra.
      * nra.
Qed.

Lemma rem_whole (s c : Z) :
  (0 < c)%Z -> (0 <= s)%Z ->
  match rem (Js.Finite (inject_Z s)) (inject_Z c) with
  | Js.Finite q => (q == inject_Z (s mod c))%Q
  | _ => False
  end.
Proof.
  intros Hc Hs. cbn [rem]. unfold Qtrunc.
  assert (H0 : Qle_bool 0 (inject_Z s / inject_Z c) = true).
  { apply Qle_bool_iff. apply Qle_shift_div_l.
    - change 0%Q with (inject_Z 0). rewrite <- Zlt_Qlt. exact Hc.
    - rewrite Qmult_0_l. change 0%Q with (inject_Z 0).
      rewrite <- Zle_Qle. exact Hs. }
  rewrite H0, <- Zdiv_Qdiv, Z.mod_eq by lia.
  unfold Z.sub. rewrite inject_Z_plus, inject_Z_opp, inject_Z_mult.
  reflexivity.
Qed.

(** X8. For a whole number of seconds from 0 to below 2^40,
    [formatDuration] prints what integer arithmetic gives: the hours
    [s / 3600] followed by the minutes [(s mod 3600) / 60], or the
    minutes alone below one hour; the minutes are below 60.  The rounding
    is assumed to preserve order, to store integers up to 2^53 exactly
    and to err by at most one part in 2^53. *)
Theorem formatDuration_whole_seconds (round : Q -> Q) (digits : Q -> string)
    (s : Z) :
  JsMath.monotone round -> JsMath.exact_on_integers round -> JsMath.accurate round ->
  (0 <= s < 2 ^ 40)%Z ->
  formatDuration round digits (Js.Finite (inject_Z s))
  = (if (3600 <=? s)%Z
     then (JsMath.decimal (s / 3600) ++ "h "
           ++ JsMath.decimal (s mod 3600 / 60) ++ "m")%string
     else (JsMath.decimal (s / 60) ++ "m")%string)
  /\ (0 <= s mod 3600 / 60 < 60)%Z.
Proof.
  intros Hm He Ha [Hs0 Hs1].
  assert (P40 : (2 ^ 40 = 1099511627776)%Z) by reflexivity.
  assert (P53 : (2 ^ 53 = 9007199254740992)%Z) by reflexivity.
  pose proof (Z.mod_pos_bound s 3600 ltac:(lia)) as Hr.
  assert (Hmin : (0 <= s mod 3600 / 60 < 60)%Z).
  { split; [apply Z.div_pos; lia|apply Z.div_lt_upper_bound; lia]. }
  split; [|exact Hmin].
  unfold formatDuration.
  pose proof (rem_whole s 3600 ltac:(lia) Hs0) as Hrem.
  change (inject_Z 3600) with 3600%Q in Hrem.
  destruct (rem (Js.Finite (inject_Z s)) 3600) as [q| | |]; try contradiction.
  cbn [JsMath.div_by JsMath.floor].
  change 3600%Q with (inject_Z 3600). change 60%Q with (inject_Z 60).
  rewrite (floor_div_whole round (inject_Z s) s 3600 Hm He Ha)
    by (try reflexivity; lia).
  rewrite (floor_div_whole round q (s mod 3600) 60 Hm He Ha)
    by (try exact Hrem; lia).
  change (Js.Finite 0) with (Js.Finite (inject_Z 0)).
  rewrite JsMath.lt_whole.
  assert (Hh : (0 <= s / 3600 < 2 ^ 40)%Z).
  { split; [apply Z.div_pos; lia|apply Z.div_lt_upper_bound; lia]. }
  rewrite !JsMath.to_string_whole
    by (change (2 ^ 53)%Z with 9007199254740992%Z; lia).
  destruct (Z.leb_spec 3600 s) as [Hge|Hlt].
  - assert (H1 : (0 < s / 3600)%Z) by (apply Z.div_str_pos; lia).
    apply Z.ltb_lt in H1. now rewrite H1.
  - rewrite (Z.div_small s 3600) by lia. cbn [Z.ltb Z.compare].
    now rewrite (Z.mod_small s 3600) by lia.
Qed.

(** The theorem without rounding error, for an hour, two minutes and
    five seconds. *)
Lemma formatDuration_sample :
  formatDuration JsMath.exact ProjectRow.no_digits (Js.Finite (inject_Z 3725))
  = "1h 2m".
Proof.
  destruct (formatDuration_whole_seconds JsMath.exact ProjectRow.no_digits
              3725 JsMath.exact_monotone JsMath.exact_on_integers_exact
              JsMath.accurate_exact ltac:(split; [discriminate|reflexivity]))
    as [H _].
  rewrite H. reflexivity.
Defined.

End Duration.
